(** * The GTK4 application example ([examples/application.c])

    The example is glue over a GUI toolkit: every function of the file is a
    short sequence of toolkit calls.  The embedding keeps that shape.  A
    function of the file is a program: a finite tree of toolkit calls, each
    continued with the value the toolkit answers.  The toolkit itself is not
    part of the file, so programs are run against an arbitrary toolkit (a
    state type and a transition per call) and the theorems hold for every
    one of them. *)

From stdpp Require Import base strings pretty list gmap.
From Stdlib Require Import ZArith.

(** ** Values *)

(** Object references ([GObject *], [GFile *], [gpointer], ...) are handles;
    [NULL] is handle 0. *)
Definition gpointer := N.
Definition NULL : gpointer := 0%N.

(** The line feed that ends every message of the file. *)
Definition nl : string := String (Ascii.ascii_of_nat 10) EmptyString.

(** [#define APP_ID "org.example.gtk-ui-example"] *)
Definition APP_ID : string := "org.example.gtk-ui-example".

(** The instance casts ([GTK_APPLICATION], [EXAMPLE_APP], [G_ACTION_MAP],
    [GTK_WINDOW], [GTK_STYLE_PROVIDER], [G_APPLICATION]) hand back the
    reference they are given. *)
Definition GTK_APPLICATION (p : gpointer) : gpointer := p.
Definition EXAMPLE_APP (p : gpointer) : gpointer := p.
Definition G_ACTION_MAP (p : gpointer) : gpointer := p.
Definition GTK_WINDOW (p : gpointer) : gpointer := p.
Definition GTK_STYLE_PROVIDER (p : gpointer) : gpointer := p.
Definition G_APPLICATION (p : gpointer) : gpointer := p.

(** Toolkit constants the file names. *)
Definition GTK_STYLE_PROVIDER_PRIORITY_APPLICATION : Z := 600.
Definition G_APPLICATION_HANDLES_OPEN : Z := Z.shiftl 1 2.
Definition EXAMPLE_TYPE_APP : string := "ExampleApp".

(** The four action handlers, as the function pointers stored in
    [app_entries]. *)
Inductive GCallback : Type :=
| fn_on_new_window
| fn_on_preferences
| fn_on_shortcuts
| fn_on_about.

#[global] Instance GCallback_eq_dec : EqDecision GCallback.
Proof. solve_decision. Defined.

(** [GActionEntry]: name, activate, parameter_type, state, change_state.
    A [NULL] field is [None]. *)
Record GActionEntry : Type := {
  name : string;
  activate : option GCallback;
  parameter_type : option string;
  state : option string;
  change_state : option GCallback
}.

#[global] Instance GActionEntry_eq_dec : EqDecision GActionEntry.
Proof. solve_decision. Defined.

(** A property value given to [g_object_new]. *)
Inductive gvalue : Type :=
| GString (s : string)
| GFlags (f : Z).

(** ** Toolkit calls *)

(** The toolkit entry points the file calls, with their arguments.  A
    [NULL]-terminated array of strings is a list; a [char *] that may be
    [NULL] is an [option string]; [g_print] keeps its format and its
    arguments apart. *)
Inductive call : Type :=
| g_print (format : string) (args : list (option string))
| parent_startup (gapp : gpointer)
| g_action_map_add_action_entries
    (action_map : gpointer) (entries : list GActionEntry)
    (n_entries : Z) (user_data : gpointer)
| gtk_css_provider_new
| gtk_css_provider_load_from_path
    (provider : gpointer) (path : string) (error : gpointer)
| gdk_display_get_default
| gtk_style_context_add_provider_for_display
    (display provider : gpointer) (priority : Z)
| gtk_application_set_accels_for_action
    (app : gpointer) (detailed_action_name : string) (accels : list string)
| gtk_builder_new_from_file (filename : string)
| gtk_builder_get_object (builder : gpointer) (object_name : string)
| gtk_window_set_application (window app : gpointer)
| gtk_window_present (window : gpointer)
| g_object_unref (object : gpointer)
| g_file_get_path (file : gpointer)
| g_free (mem : option string)
| g_application_set_application_id (app : gpointer) (id : string)
| g_object_new (type : string) (properties : list (string * gvalue))
| g_application_run (app : gpointer) (argc : Z) (argv : list string).

(** What the toolkit answers to a call.  The three-argument
    [gtk_css_provider_load_from_path] answers a success flag, which is the
    most the caller can learn about the stylesheet load. *)
Definition ret_ty (c : call) : Type :=
  match c with
  | gtk_css_provider_new => gpointer
  | gtk_css_provider_load_from_path _ _ _ => bool
  | gdk_display_get_default => gpointer
  | gtk_builder_new_from_file _ => gpointer
  | gtk_builder_get_object _ _ => gpointer
  | g_file_get_path _ => option string
  | g_object_new _ _ => gpointer
  | g_application_run _ _ _ => Z
  | _ => unit
  end.

(** The C name of the function a call enters. *)
Definition call_name (c : call) : string :=
  match c with
  | g_print _ _ => "g_print"
  | parent_startup _ => "ADW_APPLICATION_CLASS(example_app_parent_class)->startup"
  | g_action_map_add_action_entries _ _ _ _ => "g_action_map_add_action_entries"
  | gtk_css_provider_new => "gtk_css_provider_new"
  | gtk_css_provider_load_from_path _ _ _ => "gtk_css_provider_load_from_path"
  | gdk_display_get_default => "gdk_display_get_default"
  | gtk_style_context_add_provider_for_display _ _ _ =>
      "gtk_style_context_add_provider_for_display"
  | gtk_application_set_accels_for_action _ _ _ =>
      "gtk_application_set_accels_for_action"
  | gtk_builder_new_from_file _ => "gtk_builder_new_from_file"
  | gtk_builder_get_object _ _ => "gtk_builder_get_object"
  | gtk_window_set_application _ _ => "gtk_window_set_application"
  | gtk_window_present _ => "gtk_window_present"
  | g_object_unref _ => "g_object_unref"
  | g_file_get_path _ => "g_file_get_path"
  | g_free _ => "g_free"
  | g_application_set_application_id _ _ => "g_application_set_application_id"
  | g_object_new _ _ => "g_object_new"
  | g_application_run _ _ _ => "g_application_run"
  end.

(** ** Programs *)

Inductive prog (A : Type) : Type :=
| Ret (a : A)
| Call (c : call) (k : ret_ty c → prog A).
Arguments Ret {A} a.
Arguments Call {A} c k.

Fixpoint prog_bind {A B : Type} (f : A → prog B) (p : prog A) : prog B :=
  match p with
  | Ret a => f a
  | Call c k => Call c (λ r, prog_bind f (k r))
  end.

#[global] Instance prog_mret : MRet prog := λ A a, Ret a.
#[global] Instance prog_mbind : MBind prog := λ A B f p, prog_bind f p.

(** One toolkit call, answered. *)
Definition invoke (c : call) : prog (ret_ty c) := Call c Ret.

(** [for (x in l) body]. *)
Fixpoint for_each {A : Type} (l : list A) (body : A → prog unit) : prog unit :=
  match l with
  | [] => Ret tt
  | x :: l' => body x ;; for_each l' body
  end.

(** ** Running a program against a toolkit *)

Record toolkit : Type := {
  tk_state : Type;
  tk_step : ∀ c : call, tk_state → ret_ty c * tk_state
}.

(** A call together with the toolkit's answer. *)
Record event : Type := Ev { ev_call : call; ev_ret : ret_ty ev_call }.

Fixpoint run {A : Type} (T : toolkit) (p : prog A) (s : tk_state T)
  : A * tk_state T * list event :=
  match p with
  | Ret a => (a, s, [])
  | Call c k =>
      let rs := tk_step T c s in
      let x := run T (k rs.1) rs.2 in
      (x.1.1, x.1.2, Ev c rs.1 :: x.2)
  end.

Definition result {A : Type} (T : toolkit) (p : prog A) (s : tk_state T) : A :=
  (run T p s).1.1.
Definition final {A : Type} (T : toolkit) (p : prog A) (s : tk_state T)
  : tk_state T := (run T p s).1.2.
Definition trace {A : Type} (T : toolkit) (p : prog A) (s : tk_state T)
  : list event := (run T p s).2.

(** The calls of a trace, and the functions entered. *)
Definition calls (tr : list event) : list call := ev_call <$> tr.
Definition path_of (tr : list event) : list string := call_name <$> calls tr.

(** ** The file's functions *)

(** Action handlers. *)
Definition on_new_window (action parameter user_data : gpointer) : prog unit :=
  let app := EXAMPLE_APP user_data in
  invoke (g_print ("New window activated" +:+ nl) []).

Definition on_preferences (action parameter user_data : gpointer) : prog unit :=
  invoke (g_print ("Preferences activated" +:+ nl) []).

Definition on_shortcuts (action parameter user_data : gpointer) : prog unit :=
  invoke (g_print ("Keyboard shortcuts activated" +:+ nl) []).

Definition on_about (action parameter user_data : gpointer) : prog unit :=
  invoke (g_print ("About activated" +:+ nl) []).

(** The function behind each function pointer. *)
Definition callback (f : GCallback) : gpointer → gpointer → gpointer → prog unit :=
  match f with
  | fn_on_new_window => on_new_window
  | fn_on_preferences => on_preferences
  | fn_on_shortcuts => on_shortcuts
  | fn_on_about => on_about
  end.

(** Application actions. *)
Definition app_entries : list GActionEntry := [
  {| name := "new-window"; activate := Some fn_on_new_window;
     parameter_type := None; state := None; change_state := None |};
  {| name := "preferences"; activate := Some fn_on_preferences;
     parameter_type := None; state := None; change_state := None |};
  {| name := "shortcuts"; activate := Some fn_on_shortcuts;
     parameter_type := None; state := None; change_state := None |};
  {| name := "about"; activate := Some fn_on_about;
     parameter_type := None; state := None; change_state := None |}
].

Definition G_N_ELEMENTS {A : Type} (arr : list A) : Z := Z.of_nat (length arr).

(** Load custom CSS. *)
Definition load_css (app : gpointer) : prog unit :=
  provider ← invoke gtk_css_provider_new;
  invoke (gtk_css_provider_load_from_path provider "style.css" NULL);;
  display ← invoke gdk_display_get_default;
  invoke (gtk_style_context_add_provider_for_display
            display (GTK_STYLE_PROVIDER provider)
            GTK_STYLE_PROVIDER_PRIORITY_APPLICATION).

(** Set keyboard shortcuts. *)
Definition set_accels (app : gpointer) : prog unit :=
  let new_window_accels := ["<Primary>n"] in
  invoke (gtk_application_set_accels_for_action
            app "app.new-window" new_window_accels);;
  let preferences_accels := ["<Primary>comma"] in
  invoke (gtk_application_set_accels_for_action
            app "app.preferences" preferences_accels);;
  let shortcuts_accels := ["<Primary>question"] in
  invoke (gtk_application_set_accels_for_action
            app "app.shortcuts" shortcuts_accels).

(** Application startup. *)
Definition example_app_startup (gapp : gpointer) : prog unit :=
  let app := GTK_APPLICATION gapp in
  let self := EXAMPLE_APP app in
  invoke (parent_startup gapp);;
  invoke (g_action_map_add_action_entries
            (G_ACTION_MAP app) app_entries (G_N_ELEMENTS app_entries) self);;
  set_accels app;;
  load_css app;;
  invoke (g_print ("Application started" +:+ nl) []).

(** Application activate. *)
Definition example_app_activate (gapp : gpointer) : prog unit :=
  let app := GTK_APPLICATION gapp in
  builder ← invoke (gtk_builder_new_from_file "window.ui");
  window ← invoke (gtk_builder_get_object builder "example_window");
  invoke (gtk_window_set_application (GTK_WINDOW window) app);;
  invoke (gtk_window_present (GTK_WINDOW window));;
  invoke (g_object_unref builder);;
  invoke (g_print ("Window activated" +:+ nl) []).

(** [files[i]].  The toolkit passes an array of [n_files] elements; an index
    outside it is not a defined read in C, and reads [NULL] here. *)
Definition file_at (files : list gpointer) (i : Z) : gpointer :=
  default NULL (files !! Z.to_nat i).

(** One turn of the loop of [example_app_open]. *)
Definition open_body (files : list gpointer) (i : Z) : prog unit :=
  path ← invoke (g_file_get_path (file_at files i));
  invoke (g_print ("Opening file: %s" +:+ nl) [path]);;
  invoke (g_free path).

(** Application open (handle file opening).
    [for (int i = 0; i < n_files; i++)] runs over 0, ..., n_files - 1, and
    over nothing when [n_files <= 0]; [i] stays below [n_files], so the
    increment stays within [int]. *)
Definition example_app_open
    (gapp : gpointer) (files : list gpointer) (n_files : Z) (hint : string)
  : prog unit :=
  let app := GTK_APPLICATION gapp in
  for_each (seqZ 0 n_files) (open_body files);;
  example_app_activate gapp.

(** The three slots of the application class the file overrides. *)
Module GApplicationClass.
Record t : Type := {
  startup : gpointer → prog unit;
  activate : gpointer → prog unit;
  open : gpointer → list gpointer → Z → string → prog unit
}.
End GApplicationClass.

(** Class initialization. *)
Definition example_app_class_init (klass : GApplicationClass.t)
  : GApplicationClass.t :=
  {| GApplicationClass.startup := example_app_startup;
     GApplicationClass.activate := example_app_activate;
     GApplicationClass.open := example_app_open |}.

(** Instance initialization. *)
Definition example_app_init (self : gpointer) : prog unit :=
  invoke (g_application_set_application_id (G_APPLICATION self) APP_ID).

(** Main function. *)
Definition main (argc : Z) (argv : list string) : prog Z :=
  app ← invoke (g_object_new EXAMPLE_TYPE_APP
                  [("application-id", GString APP_ID);
                   ("flags", GFlags G_APPLICATION_HANDLES_OPEN)]);
  status ← invoke (g_application_run (G_APPLICATION app) argc argv);
  invoke (g_object_unref app);;
  mret status.

(** ** What a sequence of calls amounts to *)

(** The actions a call registers, each with the action map it goes to:
    the first [n_entries] entries, or all of them when [n_entries] is -1. *)
Definition entries_of (c : call) : list (gpointer * GActionEntry) :=
  match c with
  | g_action_map_add_action_entries m es n _ =>
      (λ e, (m, e)) <$> (if decide (n = (-1)%Z) then es else take (Z.to_nat n) es)
  | _ => []
  end.

Definition registered (cs : list call) : list (gpointer * GActionEntry) :=
  cs ≫= entries_of.

(** The action map [m] after the calls, from an empty map: an action
    registered under a name replaces the one that held the name. *)
Definition add_action (m : gpointer) (t : gmap string GActionEntry)
    (me : gpointer * GActionEntry) : gmap string GActionEntry :=
  if decide (me.1 = m) then <[name me.2 := me.2]> t else t.

Definition action_table (m : gpointer) (cs : list call)
  : gmap string GActionEntry :=
  foldl (add_action m) ∅ (registered cs).

(** The accelerator bindings made, in order: application, detailed action
    name, accelerators. *)
Definition accel_of (c : call) : option (gpointer * string * list string) :=
  match c with
  | gtk_application_set_accels_for_action a n l => Some (a, n, l)
  | _ => None
  end.

Definition accel_bindings (cs : list call)
  : list (gpointer * string * list string) :=
  omap accel_of cs.

(** The accelerators of application [a] after the calls: a binding replaces
    the one of the same action, and an empty list removes it. *)
Definition set_accel (a : gpointer) (t : gmap string (list string))
    (b : gpointer * string * list string) : gmap string (list string) :=
  if decide (b.1.1 = a)
  then match b.2 with [] => delete b.1.2 t | _ => <[b.1.2 := b.2]> t end
  else t.

Definition accel_table (a : gpointer) (cs : list call)
  : gmap string (list string) :=
  foldl (set_accel a) ∅ (accel_bindings cs).

(** The action [action] of the application's map ("app." prefix) gets at
    least one accelerator in the calls. *)
Definition bound_by (cs : list call) (action : string) : Prop :=
  ∃ a accel accels,
    (a, "app." +:+ action, accel :: accels) ∈ accel_bindings cs.

(** What is printed, as format and arguments. *)
Definition print_of (c : call) : option (string * list (option string)) :=
  match c with
  | g_print f args => Some (f, args)
  | _ => None
  end.

Definition printed (cs : list call) : list (string * list (option string)) :=
  omap print_of cs.

(** The windows presented. *)
Definition present_of (c : call) : option gpointer :=
  match c with
  | gtk_window_present w => Some w
  | _ => None
  end.

Definition presented (cs : list call) : list gpointer := omap present_of cs.

(** The files asked for their path, each with the path the toolkit
    answered. *)
Definition path_answer_of (e : event) : option (gpointer * option string) :=
  match ev_call e as c return ret_ty c → option (gpointer * option string) with
  | g_file_get_path f => λ path, Some (f, path)
  | _ => λ _, None
  end (ev_ret e).

Definition path_answers (tr : list event) : list (gpointer * option string) :=
  omap path_answer_of tr.

(** The calls one turn of the file loop enters, and the calls one activation
    enters. *)
Definition file_turn_path : list string :=
  ["g_file_get_path"; "g_print"; "g_free"].

Definition activation_path : list string :=
  ["gtk_builder_new_from_file"; "gtk_builder_get_object";
   "gtk_window_set_application"; "gtk_window_present";
   "g_object_unref"; "g_print"].

(** ** Two toolkits *)

(** A toolkit to run the programs on concrete inputs: its state is the last
    handle it gave out; every object it is asked for is a fresh handle, the
    stylesheet loads, a file's path is "/srv/" followed by its handle, and
    the event loop exits with status 0. *)
Definition tk_fresh_step (c : call) (s : N) : ret_ty c * N :=
  match c as c0 return ret_ty c0 * N with
  | gtk_css_provider_new => ((s + 1)%N, (s + 1)%N)
  | gtk_css_provider_load_from_path _ _ _ => (true, s)
  | gdk_display_get_default => ((s + 1)%N, (s + 1)%N)
  | gtk_builder_new_from_file _ => ((s + 1)%N, (s + 1)%N)
  | gtk_builder_get_object _ _ => ((s + 1)%N, (s + 1)%N)
  | g_file_get_path f => (Some ("/srv/" +:+ pretty f), s)
  | g_object_new _ _ => ((s + 1)%N, (s + 1)%N)
  | g_application_run _ _ _ => (0%Z, s)
  | _ => (tt, s)
  end.

Definition tk_fresh : toolkit := {| tk_state := N; tk_step := tk_fresh_step |}.

(** The toolkit [T] with the stylesheet load answering [b] instead of its
    own flag; the toolkit's state moves as in [T]. *)
Definition css_answers_step (T : toolkit) (b : bool) (c : call) (s : tk_state T)
  : ret_ty c * tk_state T :=
  match c as c0 return ret_ty c0 * tk_state T with
  | gtk_css_provider_load_from_path p f e =>
      (b, (tk_step T (gtk_css_provider_load_from_path p f e) s).2)
  | c0 => tk_step T c0 s
  end.

Definition css_answers (T : toolkit) (b : bool) : toolkit :=
  {| tk_state := tk_state T; tk_step := css_answers_step T b |}.

(** The toolkit [T] with no file having a path: [g_file_get_path] answers
    [NULL]; the toolkit's state moves as in [T]. *)
Definition no_path_step (T : toolkit) (c : call) (s : tk_state T)
  : ret_ty c * tk_state T :=
  match c as c0 return ret_ty c0 * tk_state T with
  | g_file_get_path f => (None, (tk_step T (g_file_get_path f) s).2)
  | c0 => tk_step T c0 s
  end.

Definition no_path (T : toolkit) : toolkit :=
  {| tk_state := tk_state T; tk_step := no_path_step T |}.

(** ** More of what a sequence of calls amounts to *)

(** The strings released with [g_free], in order. *)
Definition free_of (c : call) : option (option string) :=
  match c with
  | g_free mem => Some mem
  | _ => None
  end.

Definition freed (cs : list call) : list (option string) := omap free_of cs.

(** The objects released with [g_object_unref], in order. *)
Definition unref_of (c : call) : option gpointer :=
  match c with
  | g_object_unref o => Some o
  | _ => None
  end.

Definition unreffed (cs : list call) : list gpointer := omap unref_of cs.

(** The UI descriptions loaded, by file name. *)
Definition ui_load_of (c : call) : option string :=
  match c with
  | gtk_builder_new_from_file f => Some f
  | _ => None
  end.

Definition ui_loaded (cs : list call) : list string := omap ui_load_of cs.

(** The stylesheets loaded, by path. *)
Definition css_load_of (c : call) : option string :=
  match c with
  | gtk_css_provider_load_from_path _ f _ => Some f
  | _ => None
  end.

Definition css_loaded (cs : list call) : list string := omap css_load_of cs.

(** The windows attached to an application: window, application. *)
Definition attach_of (c : call) : option (gpointer * gpointer) :=
  match c with
  | gtk_window_set_application w a => Some (w, a)
  | _ => None
  end.

Definition attached (cs : list call) : list (gpointer * gpointer) :=
  omap attach_of cs.

(** The calls of one turn of the file loop, for a file and the path the
    toolkit answered for it. *)
Definition file_turn (fp : gpointer * option string) : list call :=
  [ g_file_get_path fp.1;
    g_print ("Opening file: %s" +:+ nl) [fp.2];
    g_free fp.2 ].




(** The builders the UI loads answered, in order. *)
Definition builder_answer_of (e : event) : option gpointer :=
  match ev_call e as c return ret_ty c → option gpointer with
  | gtk_builder_new_from_file _ => λ builder, Some builder
  | _ => λ _, None
  end (ev_ret e).

Definition builders_got (tr : list event) : list gpointer :=
  omap builder_answer_of tr.

(** The builder lookups, in order: builder asked, object name, object
    answered. *)
Definition object_answer_of (e : event)
  : option (gpointer * string * gpointer) :=
  match ev_call e as c
        return ret_ty c → option (gpointer * string * gpointer) with
  | gtk_builder_get_object b n => λ object, Some (b, n, object)
  | _ => λ _, None
  end (ev_ret e).

Definition objects_got (tr : list event)
  : list (gpointer * string * gpointer) :=
  omap object_answer_of tr.

(** ** Running programs: general facts *)

(** Two event lists are compared event by event; an answer of type [unit]
    is [tt]. *)
Ltac same_events :=
  repeat first
    [ reflexivity
    | apply (f_equal2 cons);
      [ first [ reflexivity
              | match goal with
                | |- Ev _ ?r = _ => generalize r; intros []; reflexivity
                end ]
      | ] ].

Lemma run_bind {A B : Type} (T : toolkit) (p : prog A) (f : A → prog B)
    (s : tk_state T) :
  run T (p ≫= f) s =
    let x := run T p s in
    let y := run T (f x.1.1) x.1.2 in
    (y.1.1, y.1.2, x.2 ++ y.2).
Proof.
  revert s. induction p as [a | c k IH]; intros s.
  - cbn. by destruct (run T (f a) s) as [[? ?] ?].
  - cbn. unfold mbind, prog_mbind in IH. cbn in IH. by rewrite IH.
Qed.

Lemma trace_bind {A B : Type} (T : toolkit) (p : prog A) (f : A → prog B)
    (s : tk_state T) :
  trace T (p ≫= f) s = trace T p s ++ trace T (f (result T p s)) (final T p s).
Proof. unfold trace, result, final. by rewrite run_bind. Qed.

Lemma final_bind {A B : Type} (T : toolkit) (p : prog A) (f : A → prog B)
    (s : tk_state T) :
  final T (p ≫= f) s = final T (f (result T p s)) (final T p s).
Proof. unfold result, final. by rewrite run_bind. Qed.

(** ** Startup: actions *)

Lemma startup_calls (T : toolkit) (s : tk_state T) (gapp : gpointer) :
  ∃ provider loaded display,
    trace T (example_app_startup gapp) s =
      [ Ev (parent_startup gapp) tt;
        Ev (g_action_map_add_action_entries gapp app_entries 4 gapp) tt;
        Ev (gtk_application_set_accels_for_action
              gapp "app.new-window" ["<Primary>n"]) tt;
        Ev (gtk_application_set_accels_for_action
              gapp "app.preferences" ["<Primary>comma"]) tt;
        Ev (gtk_application_set_accels_for_action
              gapp "app.shortcuts" ["<Primary>question"]) tt;
        Ev gtk_css_provider_new provider;
        Ev (gtk_css_provider_load_from_path provider "style.css" NULL) loaded;
        Ev gdk_display_get_default display;
        Ev (gtk_style_context_add_provider_for_display display provider 600) tt;
        Ev (g_print ("Application started" +:+ nl) []) tt ].
Proof.
  do 3 eexists. unfold trace. cbn. same_events.
Qed.

Lemma startup_registered (T : toolkit) (s : tk_state T) (gapp : gpointer) :
  registered (calls (trace T (example_app_startup gapp) s)) =
    (λ e, (G_ACTION_MAP gapp, e)) <$> app_entries.
Proof.
  destruct (startup_calls T s gapp) as (provider & loaded & display & ->).
  reflexivity.
Qed.

Lemma startup_accel_bindings (T : toolkit) (s : tk_state T) (gapp : gpointer) :
  accel_bindings (calls (trace T (example_app_startup gapp) s)) =
    [ (gapp, "app.new-window", ["<Primary>n"]);
      (gapp, "app.preferences", ["<Primary>comma"]);
      (gapp, "app.shortcuts", ["<Primary>question"]) ].
Proof.
  destruct (startup_calls T s gapp) as (provider & loaded & display & ->).
  reflexivity.
Qed.

Lemma set_accels_bindings (T : toolkit) (s : tk_state T) (app : gpointer) :
  accel_bindings (calls (trace T (set_accels app) s)) =
    [ (app, "app.new-window", ["<Primary>n"]);
      (app, "app.preferences", ["<Primary>comma"]);
      (app, "app.shortcuts", ["<Primary>question"]) ].
Proof. reflexivity. Qed.

(** C1. Startup registers exactly the four actions new-window, preferences,
    shortcuts and about on the application's action map: the registrations
    made during startup are the entries of [app_entries], all on the
    application's own map, their names are these four, and the map holds
    these four names and no other afterwards. *)
Theorem startup_registers_four_actions
    (T : toolkit) (s : tk_state T) (gapp : gpointer) :
  let cs := calls (trace T (example_app_startup gapp) s) in
  registered cs = (λ e, (G_ACTION_MAP gapp, e)) <$> app_entries
  ∧ name <$> app_entries = ["new-window"; "preferences"; "shortcuts"; "about"]
  ∧ dom (action_table (G_ACTION_MAP gapp) cs)
      = {["new-window"; "preferences"; "shortcuts"; "about"]}
  ∧ size (action_table (G_ACTION_MAP gapp) cs) = 4.
Proof.
  intros cs. subst cs. split; [apply startup_registered |].
  split; [reflexivity |].
  unfold action_table. rewrite startup_registered. cbn.
  unfold add_action. cbn. rewrite !decide_True by done.
  split.
  - rewrite !dom_insert_L, dom_empty_L. set_solver.
  - rewrite !map_size_insert_None, map_size_empty; [done | by simplify_map_eq ..].
Qed.

(** C9. Exactly three accelerator bindings are made during startup:
    app.new-window to <Primary>n, app.preferences to <Primary>comma and
    app.shortcuts to <Primary>question; the about action gets none. *)
Theorem startup_binds_three_accels
    (T : toolkit) (s : tk_state T) (gapp : gpointer) :
  let cs := calls (trace T (example_app_startup gapp) s) in
  accel_bindings cs =
    [ (GTK_APPLICATION gapp, "app.new-window", ["<Primary>n"]);
      (GTK_APPLICATION gapp, "app.preferences", ["<Primary>comma"]);
      (GTK_APPLICATION gapp, "app.shortcuts", ["<Primary>question"]) ]
  ∧ length (accel_bindings cs) = 3
  ∧ accel_table (GTK_APPLICATION gapp) cs !! "app.new-window"
      = Some ["<Primary>n"]
  ∧ accel_table (GTK_APPLICATION gapp) cs !! "app.preferences"
      = Some ["<Primary>comma"]
  ∧ accel_table (GTK_APPLICATION gapp) cs !! "app.shortcuts"
      = Some ["<Primary>question"]
  ∧ size (accel_table (GTK_APPLICATION gapp) cs) = 3
  ∧ accel_table (GTK_APPLICATION gapp) cs !! "app.about" = None
  ∧ ¬ bound_by cs "about".
Proof.
  intros cs. subst cs. unfold bound_by, accel_table.
  rewrite startup_accel_bindings. cbn.
  unfold set_accel. cbn. rewrite !decide_True by done.
  repeat split; try by simplify_map_eq.
  intros (a & accel & accels & H).
  rewrite !elem_of_cons, elem_of_nil in H. simpl in H. intuition discriminate.
Qed.

(** The action names the file exposes. *)
Lemma exposed_names :
  name <$> app_entries = ["new-window"; "preferences"; "shortcuts"; "about"].
Proof. reflexivity. Qed.

(** C2, as stated, fails: on a concrete toolkit, started on application 1,
    not every exposed action name gets an accelerator during startup. *)
Lemma not_every_action_has_accel :
  ¬ Forall
      (bound_by (calls (trace tk_fresh (example_app_startup 1%N) 0%N)))
      ["new-window"; "preferences"; "shortcuts"; "about"].
Proof.
  intros H. apply (Forall_lookup_1 _ _ 3 "about") in H; [| done].
  destruct H as (a & accel & accels & H).
  rewrite startup_accel_bindings in H.
  rewrite !elem_of_cons, elem_of_nil in H. simpl in H. intuition discriminate.
Qed.

(** C2, amended. The accelerator-binding helper makes three calls and no
    other: on the application it is given, it binds the one accelerator
    <Primary>n to app.new-window, <Primary>comma to app.preferences and
    <Primary>question to app.shortcuts.  So each of new-window, preferences
    and shortcuts gets its accelerator and about gets none; the bindings
    made during startup are the helper's. *)
Theorem set_accels_binds_three_of_four
    (T : toolkit) (s : tk_state T) (app : gpointer) :
  let cs := calls (trace T (set_accels app) s) in
  cs = [ gtk_application_set_accels_for_action
           app "app.new-window" ["<Primary>n"];
         gtk_application_set_accels_for_action
           app "app.preferences" ["<Primary>comma"];
         gtk_application_set_accels_for_action
           app "app.shortcuts" ["<Primary>question"] ]
  ∧ accel_bindings cs =
      [ (app, "app.new-window", ["<Primary>n"]);
        (app, "app.preferences", ["<Primary>comma"]);
        (app, "app.shortcuts", ["<Primary>question"]) ]
  ∧ accel_table app cs =
      <["app.shortcuts" := ["<Primary>question"]]>
        (<["app.preferences" := ["<Primary>comma"]]>
           (<["app.new-window" := ["<Primary>n"]]> ∅))
  ∧ accel_table app cs !! "app.about" = None
  ∧ Forall (bound_by cs) ["new-window"; "preferences"; "shortcuts"]
  ∧ ¬ bound_by cs "about"
  ∧ ∀ s', accel_bindings (calls (trace T (example_app_startup app) s'))
          = accel_bindings cs.
Proof.
  intros cs. subst cs. split; [reflexivity |].
  split; [apply set_accels_bindings |].
  split; [| split; [| split; [| split]]].
  - unfold accel_table. rewrite set_accels_bindings. cbn.
    unfold set_accel. cbn. by rewrite !decide_True by done.
  - unfold accel_table. rewrite set_accels_bindings. cbn.
    unfold set_accel. cbn. rewrite !decide_True by done. by simplify_map_eq.
  - rewrite !Forall_cons, Forall_nil. unfold bound_by.
    rewrite set_accels_bindings. cbn.
    repeat split; eexists _, _, _; rewrite !elem_of_cons; eauto.
  - intros (a & accel & accels & H). rewrite set_accels_bindings in H.
    rewrite !elem_of_cons, elem_of_nil in H. simpl in H. intuition discriminate.
  - intros s'. by rewrite startup_accel_bindings, set_accels_bindings.
Qed.

(** ** Startup: the stylesheet *)

(** C6. The stylesheet is loaded by path, "style.css", during startup, and
    the load comes after the parent-class chain-up, the action registration
    and the three accelerator bindings. *)
Theorem startup_loads_css_after_setup
    (T : toolkit) (s : tk_state T) (gapp : gpointer) :
  ∃ provider loaded before after,
    trace T (example_app_startup gapp) s =
      before
      ++ Ev (gtk_css_provider_load_from_path provider "style.css" NULL) loaded
      :: after
    ∧ calls before =
        [ parent_startup gapp;
          g_action_map_add_action_entries
            (G_ACTION_MAP gapp) app_entries (G_N_ELEMENTS app_entries) gapp;
          gtk_application_set_accels_for_action
            gapp "app.new-window" ["<Primary>n"];
          gtk_application_set_accels_for_action
            gapp "app.preferences" ["<Primary>comma"];
          gtk_application_set_accels_for_action
            gapp "app.shortcuts" ["<Primary>question"];
          gtk_css_provider_new ]
    ∧ path_of after =
        [ "gdk_display_get_default";
          "gtk_style_context_add_provider_for_display";
          "g_print" ].
Proof.
  destruct (startup_calls T s gapp) as (provider & loaded & display & E).
  exists provider, loaded.
  exists (take 6 (trace T (example_app_startup gapp) s)),
    (drop 7 (trace T (example_app_startup gapp) s)).
  rewrite E. done.
Qed.

(** ** The action handlers *)

(** C3. Each of the four action handlers returns for every action,
    parameter and user data, under every toolkit; all it does is print one
    message, fixed per handler, so the toolkit's state after the handler is
    its state after that one print. *)
Theorem action_callbacks_only_print :
  (∀ T s action parameter user_data,
     run T (on_new_window action parameter user_data) s =
       (tt, (tk_step T (g_print ("New window activated" +:+ nl) []) s).2,
        [Ev (g_print ("New window activated" +:+ nl) []) tt]))
  ∧ (∀ T s action parameter user_data,
     run T (on_preferences action parameter user_data) s =
       (tt, (tk_step T (g_print ("Preferences activated" +:+ nl) []) s).2,
        [Ev (g_print ("Preferences activated" +:+ nl) []) tt]))
  ∧ (∀ T s action parameter user_data,
     run T (on_shortcuts action parameter user_data) s =
       (tt, (tk_step T (g_print ("Keyboard shortcuts activated" +:+ nl) []) s).2,
        [Ev (g_print ("Keyboard shortcuts activated" +:+ nl) []) tt]))
  ∧ (∀ T s action parameter user_data,
     run T (on_about action parameter user_data) s =
       (tt, (tk_step T (g_print ("About activated" +:+ nl) []) s).2,
        [Ev (g_print ("About activated" +:+ nl) []) tt]))
  ∧ (∀ f, ∃ message, ∀ T s action parameter user_data,
       calls (trace T (callback f action parameter user_data) s)
         = [g_print message []]).
Proof.
  split; [| split; [| split; [| split]]];
    try (intros T s action parameter user_data; cbn;
         match goal with
         | |- context [tk_step T ?c s] =>
             destruct (tk_step T c s) as [[] ?]; reflexivity
         end).
  intros [];
    [ exists ("New window activated" +:+ nl)
    | exists ("Preferences activated" +:+ nl)
    | exists ("Keyboard shortcuts activated" +:+ nl)
    | exists ("About activated" +:+ nl) ]; done.
Qed.

(** ** Activation *)

Lemma activate_calls (T : toolkit) (s : tk_state T) (gapp : gpointer) :
  ∃ builder window,
    trace T (example_app_activate gapp) s =
      [ Ev (gtk_builder_new_from_file "window.ui") builder;
        Ev (gtk_builder_get_object builder "example_window") window;
        Ev (gtk_window_set_application window gapp) tt;
        Ev (gtk_window_present window) tt;
        Ev (g_object_unref builder) tt;
        Ev (g_print ("Window activated" +:+ nl) []) tt ].
Proof. do 2 eexists. unfold trace. cbn. same_events. Qed.

Lemma activate_path (T : toolkit) (s : tk_state T) (gapp : gpointer) :
  path_of (trace T (example_app_activate gapp) s) = activation_path.
Proof. reflexivity. Qed.

(** C4. Every activation loads the UI description "window.ui", asks the
    builder it got for the object named example_window, attaches that object
    as a window to the application and presents it, in that order. *)
Theorem activate_builds_and_presents_window
    (T : toolkit) (s : tk_state T) (gapp : gpointer) :
  ∃ builder window rest,
    trace T (example_app_activate gapp) s =
      [ Ev (gtk_builder_new_from_file "window.ui") builder;
        Ev (gtk_builder_get_object builder "example_window") window;
        Ev (gtk_window_set_application
              (GTK_WINDOW window) (GTK_APPLICATION gapp)) tt;
        Ev (gtk_window_present (GTK_WINDOW window)) tt ] ++ rest
    ∧ calls rest =
        [ g_object_unref builder; g_print ("Window activated" +:+ nl) [] ].
Proof.
  destruct (activate_calls T s gapp) as (builder & window & E).
  exists builder, window, (drop 4 (trace T (example_app_activate gapp) s)).
  rewrite E. done.
Qed.

(** ** File loads are not checked *)


(** ** Opening files *)

Lemma calls_app (tr1 tr2 : list event) :
  calls (tr1 ++ tr2) = calls tr1 ++ calls tr2.
Proof. apply fmap_app. Qed.

Lemma path_of_app (tr1 tr2 : list event) :
  path_of (tr1 ++ tr2) = path_of tr1 ++ path_of tr2.
Proof. unfold path_of. by rewrite calls_app, fmap_app. Qed.

Lemma printed_app (cs1 cs2 : list call) :
  printed (cs1 ++ cs2) = printed cs1 ++ printed cs2.
Proof. apply omap_app. Qed.

Lemma presented_app (cs1 cs2 : list call) :
  presented (cs1 ++ cs2) = presented cs1 ++ presented cs2.
Proof. apply omap_app. Qed.

Lemma path_answers_app (tr1 tr2 : list event) :
  path_answers (tr1 ++ tr2) = path_answers tr1 ++ path_answers tr2.
Proof. apply omap_app. Qed.

(** One turn of the loop: ask the file for its path, print it, free it. *)
Lemma open_body_trace (T : toolkit) (files : list gpointer) (i : Z)
    (s : tk_state T) :
  ∃ path,
    trace T (open_body files i) s =
      [ Ev (g_file_get_path (file_at files i)) path;
        Ev (g_print ("Opening file: %s" +:+ nl) [path]) tt;
        Ev (g_free path) tt ].
Proof. eexists. unfold trace. cbn. same_events. Qed.

Lemma file_at_middle (pre post : list gpointer) (f : gpointer) :
  file_at ((pre ++ [f]) ++ post) (Z.of_nat (length pre)) = f.
Proof.
  unfold file_at. rewrite <- app_assoc, Nat2Z.id, lookup_app_r by lia.
  by rewrite Nat.sub_diag.
Qed.

(** The loop over the files that are left, [post], of the array
    [pre ++ post]: by induction on [post]. *)
Lemma open_loop (T : toolkit) (post : list gpointer) :
  ∀ (pre : list gpointer) (s : tk_state T),
    let tr := trace T (for_each
                         (seqZ (Z.of_nat (length pre)) (Z.of_nat (length post)))
                         (open_body (pre ++ post))) s in
    (path_answers tr).*1 = post
    ∧ printed (calls tr)
        = (λ fp, ("Opening file: %s" +:+ nl, [fp.2])) <$> path_answers tr
    ∧ path_of tr = mjoin (replicate (length post) file_turn_path)
    ∧ presented (calls tr) = [].
Proof.
  induction post as [| f post IH]; intros pre s tr; subst tr.
  - done.
  - rewrite seqZ_cons by (cbn [length]; lia).
    replace (Z.succ (Z.of_nat (length pre)))
      with (Z.of_nat (length (pre ++ [f])))
      by (rewrite length_app; cbn [length]; lia).
    replace (Z.pred (Z.of_nat (length (f :: post))))
      with (Z.of_nat (length post)) by (cbn [length]; lia).
    replace (pre ++ f :: post) with ((pre ++ [f]) ++ post)
      by (by rewrite <- app_assoc).
    cbn [for_each]. rewrite trace_bind.
    set (s1 := final T (open_body ((pre ++ [f]) ++ post)
                          (Z.of_nat (length pre))) s).
    destruct (IH (pre ++ [f]) s1) as (Hfiles & Hprinted & Hpath & Hpres).
    destruct (open_body_trace T ((pre ++ [f]) ++ post)
                (Z.of_nat (length pre)) s) as (path & ->).
    rewrite file_at_middle.
    rewrite path_answers_app, !calls_app, printed_app, presented_app,
      path_of_app, fmap_app, Hfiles, Hprinted, Hpath, Hpres.
    done.
Qed.

(** The whole loop of [example_app_open]. *)
Lemma open_loop_all (T : toolkit) (files : list gpointer) (s : tk_state T) :
  let tr := trace T (for_each (seqZ 0 (Z.of_nat (length files)))
                       (open_body files)) s in
  (path_answers tr).*1 = files
  ∧ printed (calls tr)
      = (λ fp, ("Opening file: %s" +:+ nl, [fp.2])) <$> path_answers tr
  ∧ path_of tr = mjoin (replicate (length files) file_turn_path)
  ∧ presented (calls tr) = [].
Proof. exact (open_loop T files [] s). Qed.

(** C5. Opening [n] files asks each file of the list for its path and
    prints it, in list order, one turn per file; activation follows, so one
    window is presented. *)
Theorem open_prints_each_path_then_activates
    (T : toolkit) (s : tk_state T) (gapp : gpointer)
    (files : list gpointer) (hint : string) :
  let n_files := Z.of_nat (length files) in
  ∃ tr_files s' window,
    trace T (example_app_open gapp files n_files hint) s
      = tr_files ++ trace T (example_app_activate gapp) s'
    ∧ (path_answers tr_files).*1 = files
    ∧ printed (calls tr_files)
        = (λ fp, ("Opening file: %s" +:+ nl, [fp.2])) <$> path_answers tr_files
    ∧ presented (calls tr_files) = []
    ∧ presented (calls (trace T (example_app_activate gapp) s')) = [window]
    ∧ presented (calls (trace T (example_app_open gapp files n_files hint) s))
        = [window].
Proof.
  intros n_files. subst n_files. unfold example_app_open.
  set (loop := for_each (seqZ 0 (Z.of_nat (length files))) (open_body files)).
  destruct (open_loop_all T files s) as (Hfiles & Hprinted & _ & Hpres).
  fold loop in Hfiles, Hprinted, Hpres.
  destruct (activate_calls T (final T loop s) gapp) as (builder & window & E).
  exists (trace T loop s), (final T loop s), window.
  rewrite trace_bind, calls_app, presented_app, Hpres, E. done.
Qed.

Lemma file_turns_enter (fn : string) (n : nat) :
  fn ∉ file_turn_path →
  filter (λ x, x = fn) (mjoin (replicate n file_turn_path)) = [].
Proof.
  intros Hfn. induction n as [| n IH]; [done |].
  change (mjoin (replicate (S n) file_turn_path))
    with (file_turn_path ++ mjoin (replicate n file_turn_path)).
  rewrite filter_app, IH, app_nil_r.
  unfold file_turn_path in *.
  rewrite !filter_cons, filter_nil.
  repeat case_decide; try done; subst;
    exfalso; apply Hfn; rewrite !elem_of_cons; auto.
Qed.

(** C10. An open invocation activates exactly once, whatever the number of
    files: the functions entered are one turn of the loop per file followed
    by one activation, so the UI description is loaded once and one window
    is presented.  With no file ([n_files = 0]) opening does what activation
    does: the only print is the activation message. *)
Theorem open_activates_exactly_once
    (T : toolkit) (s : tk_state T) (gapp : gpointer)
    (files : list gpointer) (hint : string) :
  let tr :=
    trace T (example_app_open gapp files (Z.of_nat (length files)) hint) s in
  path_of tr = mjoin (replicate (length files) file_turn_path) ++ activation_path
  ∧ length (filter (λ fn, fn = "gtk_builder_new_from_file") (path_of tr)) = 1
  ∧ length (presented (calls tr)) = 1
  ∧ (∀ files',
       run T (example_app_open gapp files' 0 hint) s
         = run T (example_app_activate gapp) s)
  ∧ (∀ files',
       printed (calls (trace T (example_app_open gapp files' 0 hint) s))
         = [("Window activated" +:+ nl, [])]).
Proof.
  intros tr.
  assert (Hpath : path_of tr
    = mjoin (replicate (length files) file_turn_path) ++ activation_path).
  { subst tr. unfold example_app_open. rewrite trace_bind, path_of_app.
    destruct (open_loop_all T files s) as (_ & _ & -> & _).
    by rewrite activate_path. }
  split; [exact Hpath |]. split; [| split; [| split]].
  - rewrite Hpath, filter_app, file_turns_enter; [done |].
    unfold file_turn_path. rewrite !elem_of_cons, elem_of_nil.
    intuition discriminate.
  - subst tr. unfold example_app_open.
    rewrite trace_bind, calls_app, presented_app.
    destruct (open_loop_all T files s) as (_ & _ & _ & ->).
    by destruct (activate_calls T
      (final T (for_each (seqZ 0 (Z.of_nat (length files)))
                  (open_body files)) s) gapp) as (builder & window & ->).
  - intros files'. reflexivity.
  - intros files'. by destruct (activate_calls T s gapp) as (b & w & E).
Qed.

(** ** The class and the entry point *)

(** Class initialization installs the three lifecycle handlers. *)
Lemma class_init_handlers (klass : GApplicationClass.t) :
  GApplicationClass.startup (example_app_class_init klass) = example_app_startup
  ∧ GApplicationClass.activate (example_app_class_init klass)
      = example_app_activate
  ∧ GApplicationClass.open (example_app_class_init klass) = example_app_open.
Proof. done. Qed.

(** [main] creates the application with its id and the flag that lets it
    handle files, runs it, releases it and returns the status of the run. *)
Lemma main_calls (T : toolkit) (s : tk_state T) (argc : Z) (argv : list string) :
  ∃ app status,
    trace T (main argc argv) s =
      [ Ev (g_object_new "ExampleApp"
              [("application-id", GString "org.example.gtk-ui-example");
               ("flags", GFlags 4)]) app;
        Ev (g_application_run app argc argv) status;
        Ev (g_object_unref app) tt ]
    ∧ result T (main argc argv) s = status.
Proof. do 2 eexists. unfold trace, result. cbn. split; same_events. Qed.

(** ** Runs on a concrete toolkit *)

Example startup_run :
  path_of (trace tk_fresh (example_app_startup 1%N) 1%N) =
    [ "ADW_APPLICATION_CLASS(example_app_parent_class)->startup";
      "g_action_map_add_action_entries";
      "gtk_application_set_accels_for_action";
      "gtk_application_set_accels_for_action";
      "gtk_application_set_accels_for_action";
      "gtk_css_provider_new";
      "gtk_css_provider_load_from_path";
      "gdk_display_get_default";
      "gtk_style_context_add_provider_for_display";
      "g_print" ].
Proof. reflexivity. Qed.

Example activate_run :
  calls (trace tk_fresh (example_app_activate 1%N) 1%N) =
    [ gtk_builder_new_from_file "window.ui";
      gtk_builder_get_object 2%N "example_window";
      gtk_window_set_application 3%N 1%N;
      gtk_window_present 3%N;
      g_object_unref 2%N;
      g_print ("Window activated" +:+ nl) [] ].
Proof. reflexivity. Qed.

Example open_two_files_run :
  printed (calls (trace tk_fresh
                    (example_app_open 1%N [7%N; 8%N] 2 "") 1%N)) =
    [ ("Opening file: %s" +:+ nl, [Some "/srv/7"]);
      ("Opening file: %s" +:+ nl, [Some "/srv/8"]);
      ("Window activated" +:+ nl, []) ].
Proof. vm_compute. reflexivity. Qed.

Example open_no_file_run :
  calls (trace tk_fresh (example_app_open 1%N [] 0 "") 1%N) =
    calls (trace tk_fresh (example_app_activate 1%N) 1%N).
Proof. reflexivity. Qed.

Example about_has_no_accel_run :
  accel_table 1%N (calls (trace tk_fresh (example_app_startup 1%N) 1%N))
    !! "app.about" = None.
Proof. vm_compute. reflexivity. Qed.

(** ** Opening files: any count, and what is released *)

Lemma file_at_inside (pre post rest : list gpointer) (f : gpointer) :
  file_at ((pre ++ [f]) ++ post ++ rest) (Z.of_nat (length pre)) = f.
Proof.
  unfold file_at. rewrite <- app_assoc, Nat2Z.id, lookup_app_r by lia.
  by rewrite Nat.sub_diag.
Qed.

(** The loop over the files [post] of the array [pre ++ post ++ rest]: the
    files after [post] are not reached, and every turn is a path query, a
    print of the answer and a release of it. *)
Lemma open_loop_within (T : toolkit) (post : list gpointer) :
  ∀ (pre rest : list gpointer) (s : tk_state T),
    let tr := trace T (for_each
                         (seqZ (Z.of_nat (length pre)) (Z.of_nat (length post)))
                         (open_body (pre ++ post ++ rest))) s in
    (path_answers tr).*1 = post
    ∧ calls tr = path_answers tr ≫= file_turn.
Proof.
  induction post as [| f post IH]; intros pre rest s tr; subst tr.
  - done.
  - rewrite seqZ_cons by (cbn [length]; lia).
    replace (Z.succ (Z.of_nat (length pre)))
      with (Z.of_nat (length (pre ++ [f])))
      by (rewrite length_app; cbn [length]; lia).
    replace (Z.pred (Z.of_nat (length (f :: post))))
      with (Z.of_nat (length post)) by (cbn [length]; lia).
    replace (pre ++ (f :: post) ++ rest) with ((pre ++ [f]) ++ post ++ rest)
      by (by rewrite <- !app_assoc).
    cbn [for_each]. rewrite trace_bind.
    set (s1 := final T (open_body ((pre ++ [f]) ++ post ++ rest)
                          (Z.of_nat (length pre))) s).
    destruct (IH (pre ++ [f]) rest s1) as (Hfiles & Hcalls).
    destruct (open_body_trace T ((pre ++ [f]) ++ post ++ rest)
                (Z.of_nat (length pre)) s) as (path & ->).
    rewrite file_at_inside.
    rewrite path_answers_app, calls_app, fmap_app, Hfiles, Hcalls.
    done.
Qed.

Lemma freed_file_turns (l : list (gpointer * option string)) :
  freed (l ≫= file_turn) = l.*2.
Proof. induction l as [| fp l IH]; [done |]. cbn. by f_equal. Qed.

Lemma printed_file_turns (l : list (gpointer * option string)) :
  printed (l ≫= file_turn) = (λ fp, ("Opening file: %s" +:+ nl, [fp.2])) <$> l.
Proof. induction l as [| fp l IH]; [done |]. cbn. by f_equal. Qed.

Lemma quiet_file_turns {A : Type} (f : call → option A)
    (l : list (gpointer * option string)) :
  (∀ fp, omap f (file_turn fp) = []) → omap f (l ≫= file_turn) = [].
Proof.
  intros Hf. induction l as [| fp l IH]; [done |].
  change ((fp :: l) ≫= file_turn) with (file_turn fp ++ (l ≫= file_turn)).
  by rewrite omap_app, Hf, IH.
Qed.

Lemma registered_file_turns (l : list (gpointer * option string)) :
  registered (l ≫= file_turn) = [].
Proof. induction l as [| fp l IH]; [done |]. exact IH. Qed.

Lemma path_answers_activate (T : toolkit) (s : tk_state T) (gapp : gpointer) :
  path_answers (trace T (example_app_activate gapp) s) = [].
Proof. by destruct (activate_calls T s gapp) as (builder & window & ->). Qed.

(** [example_app_open] on the whole array: the turns of the loop, then
    activation. *)
Lemma open_split_all
    (T : toolkit) (s : tk_state T) (gapp : gpointer)
    (files : list gpointer) (hint : string) :
  ∃ tr_files s',
    trace T (example_app_open gapp files (Z.of_nat (length files)) hint) s
      = tr_files ++ trace T (example_app_activate gapp) s'
    ∧ (path_answers tr_files).*1 = files
    ∧ calls tr_files = path_answers tr_files ≫= file_turn.
Proof.
  unfold example_app_open. rewrite trace_bind.
  set (loop := for_each (seqZ 0 (Z.of_nat (length files))) (open_body files)).
  exists (trace T loop s), (final T loop s). split; [done |].
  pose proof (open_loop_within T files [] [] s) as H.
  cbn [length app] in H. by rewrite app_nil_r in H.
Qed.

(** X1. When [n_files] is within the array, opening asks exactly the first
    [n_files] files for their path, in order, and reads no file past them;
    every turn is a path query, a print of the path answered and a release
    of it; activation follows. *)
Theorem open_reads_first_n_files
    (T : toolkit) (s : tk_state T) (gapp : gpointer)
    (files : list gpointer) (n_files : Z) (hint : string) :
  (0 ≤ n_files ≤ Z.of_nat (length files))%Z →
  ∃ tr_files s',
    trace T (example_app_open gapp files n_files hint) s
      = tr_files ++ trace T (example_app_activate gapp) s'
    ∧ (path_answers tr_files).*1 = take (Z.to_nat n_files) files
    ∧ calls tr_files = path_answers tr_files ≫= file_turn.
Proof.
  intros Hn. unfold example_app_open. rewrite trace_bind.
  set (loop := for_each (seqZ 0 n_files) (open_body files)).
  exists (trace T loop s), (final T loop s). split; [done |].
  pose proof (open_loop_within T (take (Z.to_nat n_files) files) []
                (drop (Z.to_nat n_files) files) s) as H.
  cbn [length app] in H. rewrite take_drop, length_take in H.
  replace (Z.of_nat (Z.to_nat n_files `min` length files)) with n_files in H
    by lia.
  exact H.
Qed.

Lemma open_reads_first_n_files_witness :
  (0 ≤ 1 ≤ Z.of_nat (length [7%N; 8%N]))%Z
  ∧ ∃ tr_files s',
      trace tk_fresh (example_app_open 1%N [7%N; 8%N] 1 "") 1%N
        = tr_files ++ trace tk_fresh (example_app_activate 1%N) s'
      ∧ (path_answers tr_files).*1 = take (Z.to_nat 1) [7%N; 8%N]
      ∧ calls tr_files = path_answers tr_files ≫= file_turn.
Proof.
  split; [cbn; lia |].
  apply (open_reads_first_n_files tk_fresh 1%N 1%N [7%N; 8%N] 1 "").
  cbn; lia.
Defined.

(** X2. A count of zero or below, negative counts included, runs no turn of
    the loop: opening then does exactly what activation does, with the same
    answers and the same toolkit state. *)
Theorem open_nonpositive_count_is_activate
    (T : toolkit) (s : tk_state T) (gapp : gpointer)
    (files : list gpointer) (n_files : Z) (hint : string) :
  (n_files ≤ 0)%Z →
  run T (example_app_open gapp files n_files hint) s
    = run T (example_app_activate gapp) s.
Proof.
  intros Hn. unfold example_app_open. by rewrite seqZ_nil.
Qed.

Lemma open_nonpositive_count_is_activate_witness :
  (-3 ≤ 0)%Z
  ∧ run tk_fresh (example_app_open 1%N [7%N; 8%N] (-3) "") 1%N
      = run tk_fresh (example_app_activate 1%N) 1%N.
Proof.
  split; [lia |].
  apply (open_nonpositive_count_is_activate tk_fresh 1%N 1%N [7%N; 8%N] (-3) "").
  lia.
Defined.

(** X3. Opening releases what it obtains: the strings freed are exactly the
    paths the toolkit answered, each once and in the order obtained, one per
    file; the loop unreferences no object, and the one object unreferenced
    in all is the builder the activation got from the UI load. *)
Theorem open_frees_each_path_once
    (T : toolkit) (s : tk_state T) (gapp : gpointer)
    (files : list gpointer) (hint : string) :
  let tr :=
    trace T (example_app_open gapp files (Z.of_nat (length files)) hint) s in
  (path_answers tr).*1 = files
  ∧ freed (calls tr) = (path_answers tr).*2
  ∧ length (freed (calls tr)) = length files
  ∧ ∃ builder,
      Ev (gtk_builder_new_from_file "window.ui") builder ∈ tr
      ∧ unreffed (calls tr) = [builder].
Proof.
  intros tr. subst tr.
  destruct (open_split_all T s gapp files hint)
    as (tr_files & s' & -> & Hfiles & Hcalls).
  destruct (activate_calls T s' gapp) as (builder & window & ->).
  rewrite path_answers_app, !calls_app, Hcalls. unfold freed, unreffed.
  rewrite !omap_app. fold (freed (path_answers tr_files ≫= file_turn)).
  rewrite freed_file_turns, (quiet_file_turns unref_of) by done.
  cbn. rewrite !app_nil_r.
  split; [done |]. split; [done |].
  split; [by rewrite length_fmap, <- Hfiles, length_fmap |].
  exists builder. split; [| done].
  rewrite elem_of_app. right. rewrite elem_of_cons. by left.
Qed.

(** ** Files without a path *)

Lemma path_answers_without_paths (T : toolkit) :
  (∀ f s0, (tk_step T (g_file_get_path f) s0).1 = None) →
  ∀ (A : Type) (p : prog A) (s : tk_state T),
    Forall (λ fp, fp.2 = None) (path_answers (trace T p s)).
Proof.
  intros Hnone A p. induction p as [a | c k IH]; intros s.
  - constructor.
  - unfold trace, path_answers in *. cbn.
    specialize (IH (tk_step T c s).1 (tk_step T c s).2).
    destruct c; cbn; try exact IH.
    constructor; [apply Hnone | exact IH].
Qed.

Lemma pairs_without_paths (l : list (gpointer * option string)) :
  Forall (λ fp, fp.2 = None) l → l = (λ f, (f, None)) <$> l.*1.
Proof.
  induction 1 as [| [f p] l Hp _ IH]; [done |].
  cbn in *. subst p. by rewrite <- IH.
Qed.

(** X4. A path that is [NULL] is not checked for: under a toolkit that
    answers no path for any file, opening still prints once per file, with a
    [NULL] argument, frees [NULL] once per file, and goes on to activate and
    present one window. *)
Theorem open_goes_on_without_paths
    (T : toolkit) (s : tk_state T) (gapp : gpointer)
    (files : list gpointer) (hint : string) :
  (∀ f s0, (tk_step T (g_file_get_path f) s0).1 = None) →
  let tr :=
    trace T (example_app_open gapp files (Z.of_nat (length files)) hint) s in
  printed (calls tr)
    = replicate (length files) ("Opening file: %s" +:+ nl, [None])
      ++ [("Window activated" +:+ nl, [])]
  ∧ freed (calls tr) = replicate (length files) None
  ∧ length (presented (calls tr)) = 1.
Proof.
  intros Hnone tr. subst tr.
  pose proof (path_answers_without_paths T Hnone unit
                (example_app_open gapp files (Z.of_nat (length files)) hint) s)
    as Hall.
  destruct (open_split_all T s gapp files hint)
    as (tr_files & s' & E & Hfiles & Hcalls).
  rewrite E in *. rewrite path_answers_app, path_answers_activate,
    app_nil_r in Hall.
  apply pairs_without_paths in Hall. rewrite Hfiles in Hall.
  destruct (activate_calls T s' gapp) as (builder & window & ->).
  rewrite !calls_app, Hcalls, printed_app. unfold freed, presented.
  rewrite !omap_app. fold (freed (path_answers tr_files ≫= file_turn)).
  rewrite printed_file_turns, freed_file_turns,
    (quiet_file_turns present_of) by done.
  rewrite Hall, <- !list_fmap_compose. cbn. rewrite app_nil_r.
  split; [| split; [| done]].
  - f_equal. by apply const_fmap.
  - by apply const_fmap.
Qed.

Lemma open_goes_on_without_paths_witness :
  printed (calls (trace (no_path tk_fresh)
                    (example_app_open 1%N [7%N; 8%N] 2 "") 1%N))
    = replicate 2 ("Opening file: %s" +:+ nl, [None])
      ++ [("Window activated" +:+ nl, [])]
  ∧ freed (calls (trace (no_path tk_fresh)
                    (example_app_open 1%N [7%N; 8%N] 2 "") 1%N))
    = replicate 2 None
  ∧ length (presented (calls (trace (no_path tk_fresh)
                    (example_app_open 1%N [7%N; 8%N] 2 "") 1%N))) = 1.
Proof.
  apply (open_goes_on_without_paths (no_path tk_fresh) 1%N 1%N [7%N; 8%N] "").
  intros f s0. reflexivity.
Defined.

(** ** Accelerators and the actions they name *)

(** X5. No accelerator dangles: every accelerator binding made at startup is
    made on the application whose action map got the actions, carries one
    accelerator, and names, under the "app." prefix, an action registered in
    the same startup; so every key of the accelerator table is a registered
    action. *)
Theorem accels_name_registered_actions
    (T : toolkit) (s : tk_state T) (gapp : gpointer) :
  let cs := calls (trace T (example_app_startup gapp) s) in
  Forall (λ b, b.1.1 = G_ACTION_MAP gapp
               ∧ length b.2 = 1
               ∧ ∃ e, (G_ACTION_MAP gapp, e) ∈ registered cs
                      ∧ b.1.2 = "app." +:+ name e)
    (accel_bindings cs)
  ∧ ∀ detailed accels,
      accel_table gapp cs !! detailed = Some accels →
      ∃ e, action_table gapp cs !! name e = Some e
           ∧ detailed = "app." +:+ name e.
Proof.
  intros cs. subst cs. unfold accel_table, action_table.
  rewrite startup_accel_bindings, startup_registered. split.
  - assert (Hreg : ∀ e, e ∈ app_entries →
              (G_ACTION_MAP gapp, e)
                ∈ (λ e, (G_ACTION_MAP gapp, e)) <$> app_entries).
    { intros e He. by apply list_elem_of_fmap_2. }
    rewrite !Forall_cons, Forall_nil. unfold app_entries in *.
    repeat split.
    + eexists {| name := "new-window" |}.
      split; [apply Hreg; rewrite !elem_of_cons; eauto | reflexivity].
    + eexists {| name := "preferences" |}.
      split; [apply Hreg; rewrite !elem_of_cons; eauto | reflexivity].
    + eexists {| name := "shortcuts" |}.
      split; [apply Hreg; rewrite !elem_of_cons; eauto | reflexivity].
  - cbn. unfold set_accel, add_action. cbn. rewrite !decide_True by done.
    intros detailed accels H.
    destruct (decide (detailed = "app.shortcuts")) as [-> |];
      [| destruct (decide (detailed = "app.preferences")) as [-> |];
         [| destruct (decide (detailed = "app.new-window")) as [-> |]]].
    + eexists {| name := "shortcuts" |}. by simplify_map_eq.
    + eexists {| name := "preferences" |}. by simplify_map_eq.
    + eexists {| name := "new-window" |}. by simplify_map_eq.
    + by simplify_map_eq.
Qed.

(** ** What each lifecycle handler leaves alone *)

(** X6. The handlers keep to their part.  Opening any number of files, and
    so activation, registers no action, binds no accelerator and loads no
    stylesheet; startup loads no UI description, attaches and presents no
    window, and asks no file for its path. *)
Theorem lifecycle_handlers_keep_apart
    (T : toolkit) (s : tk_state T) (gapp : gpointer)
    (files : list gpointer) (hint : string) :
  let opened :=
    trace T (example_app_open gapp files (Z.of_nat (length files)) hint) s in
  let started := trace T (example_app_startup gapp) s in
  registered (calls opened) = []
  ∧ accel_bindings (calls opened) = []
  ∧ css_loaded (calls opened) = []
  ∧ ui_loaded (calls started) = []
  ∧ attached (calls started) = []
  ∧ presented (calls started) = []
  ∧ path_answers started = [].
Proof.
  intros opened started. subst opened started.
  destruct (open_split_all T s gapp files hint)
    as (tr_files & s' & -> & _ & Hcalls).
  destruct (activate_calls T s' gapp) as (builder & window & ->).
  destruct (startup_calls T s gapp) as (provider & loaded & display & ->).
  rewrite !calls_app, Hcalls. unfold registered, accel_bindings, css_loaded.
  rewrite bind_app, !omap_app.
  fold (registered (path_answers tr_files ≫= file_turn)).
  rewrite registered_file_turns, (quiet_file_turns accel_of),
    (quiet_file_turns css_load_of) by done.
  done.
Qed.

(** ** The entry point *)

(** X7. [main] returns the status the run of the application answered, for
    every argument vector; it creates one application object, hands that
    object to the run, and releases it once, after the run.  The identifier
    it gives the object at creation is the one instance initialization
    sets. *)
Theorem main_returns_run_status
    (T : toolkit) (s : tk_state T) (argc : Z) (argv : list string) :
  ∃ app status properties,
    trace T (main argc argv) s =
      [ Ev (g_object_new EXAMPLE_TYPE_APP properties) app;
        Ev (g_application_run app argc argv) status;
        Ev (g_object_unref app) tt ]
    ∧ result T (main argc argv) s = status
    ∧ properties !! 1%nat = Some ("flags", GFlags 4)
    ∧ ∃ id, properties !! 0%nat = Some ("application-id", GString id)
            ∧ ∀ T' s' self,
                calls (trace T' (example_app_init self) s')
                  = [g_application_set_application_id self id].
Proof.
  destruct (main_calls T s argc argv) as (app & status & E & R).
  exists app, status. eexists. split; [exact E |]. split; [exact R |].
  split; [reflexivity |]. eexists. split; reflexivity.
Qed.

(** ** Handlers in sequence *)

(** X8. A launch, startup followed by activation: the window is attached
    to the application that got the actions and the accelerators, one window
    is presented, and the two messages come out in launch order. *)
Theorem launch_configures_then_shows_one_window
    (T : toolkit) (s : tk_state T) (gapp : gpointer) :
  let cs := calls (trace T (example_app_startup gapp ;;
                            example_app_activate gapp) s) in
  (registered cs).*1 = replicate 4 gapp
  ∧ (accel_bindings cs).*1.*1 = replicate 3 gapp
  ∧ (∃ window, attached cs = [(window, gapp)] ∧ presented cs = [window])
  ∧ printed cs = [ ("Application started" +:+ nl, []);
                   ("Window activated" +:+ nl, []) ].
Proof.
  intros cs. subst cs. rewrite trace_bind.
  destruct (activate_calls T (final T (example_app_startup gapp) s) gapp)
    as (builder & window & ->).
  destruct (startup_calls T s gapp) as (provider & loaded & display & ->).
  repeat split. by exists window.
Qed.

Lemma builders_got_app (tr1 tr2 : list event) :
  builders_got (tr1 ++ tr2) = builders_got tr1 ++ builders_got tr2.
Proof. apply omap_app. Qed.

Lemma objects_got_app (tr1 tr2 : list event) :
  objects_got (tr1 ++ tr2) = objects_got tr1 ++ objects_got tr2.
Proof. apply omap_app. Qed.

(** X9. Activation keeps no window from one call to the next: in a sequence
    of activations each one loads the UI description anew, asks the builder
    that load answered for example_window, attaches the object it was
    answered to the application it was called for, presents that same
    object, and releases that builder and nothing else; so [n] activations
    present [n] windows. *)
Theorem every_activation_builds_a_window
    (T : toolkit) (gapps : list gpointer) (s : tk_state T) :
  let tr := trace T (for_each gapps example_app_activate) s in
  let cs := calls tr in
  ui_loaded cs = replicate (length gapps) "window.ui"
  ∧ (attached cs).*2 = gapps
  ∧ presented cs = (attached cs).*1
  ∧ length (presented cs) = length gapps
  ∧ length (unreffed cs) = length gapps
  ∧ length (builders_got tr) = length gapps
  ∧ (objects_got tr).*1
      = (λ builder, (builder, "example_window")) <$> builders_got tr
  ∧ attached cs = zip (objects_got tr).*2 gapps
  ∧ presented cs = (objects_got tr).*2
  ∧ unreffed cs = builders_got tr
  ∧ path_of tr = mjoin (replicate (length gapps) activation_path).
Proof.
  revert s. induction gapps as [| gapp gapps IH]; intros s tr cs; subst cs tr.
  - done.
  - cbn [for_each]. rewrite trace_bind. cbv beta.
    set (s1 := final T (example_app_activate gapp) s).
    destruct (IH s1)
      as (Hui & Hatt & Hpres & Hlen & Hunref & Hbuilt & Hobj & Hzip
          & Hshown & Hrel & Hpath).
    rewrite path_of_app, calls_app, builders_got_app, objects_got_app.
    unfold ui_loaded, attached, presented, unreffed in *.
    rewrite !omap_app, !fmap_app, !length_app.
    destruct (activate_calls T s gapp) as (builder & window & ->).
    change (path_of _ ++ ?l) with (activation_path ++ l).
    cbn [omap calls fmap list_fmap app length attach_of present_of unref_of
         ui_load_of ev_call fst snd zip zip_with mjoin replicate
         builders_got objects_got builder_answer_of object_answer_of ev_ret
         list_omap list_join].
    repeat split; try (f_equal; assumption); try (f_equal; lia).
Qed.

(** ** The action table *)

Ltac distinct_items :=
  repeat (apply NoDup_cons; split;
          [ rewrite ?elem_of_cons, elem_of_nil; simpl; intuition discriminate
          | ]);
  apply NoDup_nil_2.

(** X10. The four actions do not get in each other's way: their names are
    pairwise distinct, so after startup each is in the action map under its
    own name, none replaced by another; each has an activate handler and
    neither parameter type, state nor change-state handler; they are
    registered with the application as user data; and their handlers print
    pairwise different messages. *)
Theorem registered_actions_keep_own_handlers
    (T : toolkit) (s : tk_state T) (gapp : gpointer) :
  let cs := calls (trace T (example_app_startup gapp) s) in
  NoDup (name <$> app_entries)
  ∧ Forall (λ e, action_table (G_ACTION_MAP gapp) cs !! name e = Some e
                 ∧ is_Some (activate e)
                 ∧ parameter_type e = None
                 ∧ state e = None
                 ∧ change_state e = None)
      app_entries
  ∧ g_action_map_add_action_entries
      (G_ACTION_MAP gapp) app_entries 4 (EXAMPLE_APP gapp) ∈ cs
  ∧ NoDup ((λ f, printed (calls (trace T (callback f NULL NULL gapp) s)))
             <$> [fn_on_new_window; fn_on_preferences;
                  fn_on_shortcuts; fn_on_about])
  ∧ activate <$> app_entries
      = Some <$> [fn_on_new_window; fn_on_preferences;
                  fn_on_shortcuts; fn_on_about].
Proof.
  intros cs. subst cs. split; [distinct_items |]. split; [| split; [| split]].
  - unfold action_table. rewrite startup_registered. unfold app_entries.
    rewrite !Forall_cons, Forall_nil.
    cbn. unfold add_action. cbn. rewrite !decide_True by done.
    repeat split; try done; by simplify_map_eq.
  - destruct (startup_calls T s gapp) as (provider & loaded & display & ->).
    cbn. rewrite !elem_of_cons. auto.
  - distinct_items.
  - reflexivity.
Qed.

(** ** The stylesheet provider *)

(** X11. A stylesheet that fails to load is installed all the same: whatever
    flag the load answers, [load_css] creates one provider, loads "style.css"
    into it with no place for an error, and adds that same provider to the
    default display at application priority; the provider is not released,
    and the toolkit is left in the state it would be in had the load
    answered otherwise. *)
Theorem load_css_installs_provider_whatever_the_load
    (T : toolkit) (loaded : bool) (s : tk_state T) (app : gpointer) :
  ∃ provider display,
    trace (css_answers T loaded) (load_css app) s =
      [ Ev gtk_css_provider_new provider;
        Ev (gtk_css_provider_load_from_path provider "style.css" NULL) loaded;
        Ev gdk_display_get_default display;
        Ev (gtk_style_context_add_provider_for_display
              display provider GTK_STYLE_PROVIDER_PRIORITY_APPLICATION) tt ]
    ∧ unreffed (calls (trace (css_answers T loaded) (load_css app) s)) = []
    ∧ final (css_answers T loaded) (load_css app) s
        = final (css_answers T (negb loaded)) (load_css app) s.
Proof.
  do 2 eexists. split; [| split].
  - unfold trace. cbn. same_events.
  - reflexivity.
  - reflexivity.
Qed.
